(** * Resting-state network assignment tables

    Verification of [src/helpers/resting_state_networks.py]: the two
    module-level dictionaries [left_ordering] and [right_ordering] that
    assign every cortical parcellation region of a hemisphere to a
    resting-state network (DMN, DAN, SAN, AUD, VIS) or to ["other"].

    The Python dictionaries are embedded as stdpp finite maps over strings.
    A dictionary display [{k1: v1, ..., kn: vn}] evaluates its items from
    left to right and stores each one, so a repeated key keeps the value
    written last; [dict_display] follows that order.  Subscription
    [d[k]] is embedded as an operation over the module's state that either
    returns the stored value or raises [KeyError]. *)

From stdpp Require Import gmap strings list fin_maps sorting.

Local Open Scope string_scope.

(** ** Dictionary displays *)

(** [{k1: v1, ..., kn: vn}]: start from the empty dictionary and store the
    items one after the other. *)
Definition dict_display (its : list (string * string)) : gmap string string :=
  foldl (fun d kv => <[kv.1 := kv.2]> d) ∅ its.

(** ** The module source *)

Definition left_ordering_items : list (string * string) :=
  [ ("isthmuscingulate", "DMN");
    ("medialorbitofrontal", "DMN");
    ("posteriorcingulate", "DMN");
    ("precuneus", "DMN");
    ("rostralanteriorcingulate", "DMN");
    ("lateralorbitofrontal", "DMN");
    ("parahippocampal", "DMN");
    ("caudalanteriorcingulate", "DAN");
    ("inferiortemporal", "DAN");
    ("middletemporal", "DAN");
    ("parsopercularis", "DAN");
    ("parsorbitalis", "DAN");
    ("parstriangularis", "DAN");
    ("insula", "SAN");
    ("rostralmiddlefrontal", "SAN");
    ("supramarginal", "SAN");
    ("caudalmiddlefrontal", "SAN");
    ("superiortemporal", "AUD");
    ("cuneus", "VIS");
    ("lateraloccipital", "VIS");
    ("fusiform", "VIS");
    ("lingual", "VIS");
    ("bankssts", "other");
    ("entorhinal", "other");
    ("frontalpole", "other");
    ("inferiorparietal", "other");
    ("superiorfrontal", "other");
    ("paracentral", "other");
    ("pericalcarine", "other");
    ("postcentral", "other");
    ("precentral", "other");
    ("superiorparietal", "other");
    ("temporalpole", "other");
    ("transversetemporal", "other") ].

Definition right_ordering_items : list (string * string) :=
  [ ("isthmuscingulate", "DMN");
    ("medialorbitofrontal", "DMN");
    ("posteriorcingulate", "DMN");
    ("precuneus", "DMN");
    ("rostralanteriorcingulate", "DMN");
    ("lateralorbitofrontal", "DMN");
    ("parahippocampal", "DMN");
    ("caudalanteriorcingulate", "DMN");
    ("inferiortemporal", "DAN");
    ("middletemporal", "DAN");
    ("parsopercularis", "DAN");
    ("parsorbitalis", "DAN");
    ("parstriangularis", "DAN");
    ("insula", "SAN");
    ("rostralmiddlefrontal", "SAN");
    ("supramarginal", "SAN");
    ("caudalmiddlefrontal", "SAN");
    ("superiortemporal", "AUD");
    ("cuneus", "VIS");
    ("lateraloccipital", "VIS");
    ("fusiform", "VIS");
    ("lingual", "VIS");
    ("bankssts", "other");
    ("entorhinal", "other");
    ("frontalpole", "other");
    ("inferiorparietal", "other");
    ("superiorfrontal", "other");
    ("paracentral", "other");
    ("pericalcarine", "other");
    ("postcentral", "other");
    ("precentral", "other");
    ("superiorparietal", "other");
    ("temporalpole", "other");
    ("transversetemporal", "other") ].

(** [left_ordering = {...}] and [right_ordering = {...}]. *)
Definition left_ordering : gmap string string :=
  dict_display left_ordering_items.

Definition right_ordering : gmap string string :=
  dict_display right_ordering_items.

(** ** Module namespace and subscription *)

(** The two global names of the module and the dictionaries they are bound
    to.  Dictionaries are mutable objects in Python, so an operation on the
    module takes the current namespace and returns the one it leaves. *)
Record namespace : Type := Namespace {
  ns_left_ordering : gmap string string;
  ns_right_ordering : gmap string string
}.

(** The namespace after the module body has run. *)
Definition module_init : namespace :=
  {| ns_left_ordering := left_ordering; ns_right_ordering := right_ordering |}.

Inductive hemisphere : Type := Left | Right.

Definition table (h : hemisphere) (ns : namespace) : gmap string string :=
  match h with
  | Left => ns_left_ordering ns
  | Right => ns_right_ordering ns
  end.

Inductive exn : Type := KeyError (key : string).

(** Outcome of an expression: an exception raised or a value returned. *)
Definition outcome : Type := exn + string.

(** [left_ordering[k]] and [right_ordering[k]]: the stored value, or
    [KeyError(k)] when [k] is not a key.  A dictionary has no
    [__missing__] hook and no default. *)
Definition getitem (h : hemisphere) (k : string) (ns : namespace)
  : outcome * namespace :=
  match table h ns !! k with
  | Some v => (inr v, ns)
  | None => (inl (KeyError k), ns)
  end.

(** A client that performs a sequence of subscriptions, each one guarded by
    [try]/[except KeyError], and records the outcomes in order. *)
Fixpoint run (qs : list (hemisphere * string)) (ns : namespace)
  : list outcome * namespace :=
  match qs with
  | [] => ([], ns)
  | (h, k) :: qs' =>
      let (r, ns1) := getitem h k ns in
      let (rs, ns2) := run qs' ns1 in
      (r :: rs, ns2)
  end.

(** ** Vocabulary of the specification *)

(** The closed set of network labels. *)
Definition network_labels : list string :=
  ["DMN"; "DAN"; "SAN"; "AUD"; "VIS"; "other"].

(** The region names written in the left display, in source order. *)
Definition region_names : list string := left_ordering_items.*1.

Definition code (c : Ascii.ascii) : nat := Ascii.nat_of_ascii c.

Definition is_lowercase_letter (c : Ascii.ascii) : bool :=
  Nat.leb 97 (code c) && Nat.leb (code c) 122.

Definition is_uppercase_letter (c : Ascii.ascii) : bool :=
  Nat.leb 65 (code c) && Nat.leb (code c) 90.

(** [str.isspace] on one ASCII character: tab, line feed, vertical tab,
    form feed, carriage return, the four separators 28..31, and space. *)
Definition is_whitespace (c : Ascii.ascii) : bool :=
  (Nat.leb 9 (code c) && Nat.leb (code c) 13)
  || (Nat.leb 28 (code c) && Nat.leb (code c) 32).

Definition chars (s : string) : list Ascii.ascii := String.list_ascii_of_string s.

(** [str.islower] on ASCII text: some cased character, none uppercase. *)
Definition islower (s : string) : bool :=
  existsb is_lowercase_letter (chars s)
  && negb (existsb is_uppercase_letter (chars s)).

(** Every character is one of [a]..[z]. *)
Definition only_lowercase_letters (s : string) : bool :=
  forallb is_lowercase_letter (chars s).

Definition has_whitespace (s : string) : bool :=
  existsb is_whitespace (chars s).

(** A well-formed region name. *)
Definition well_formed_name (s : string) : bool :=
  islower s && only_lowercase_letters s && negb (has_whitespace s).

(** Last binding of [k] among the items, as the display leaves it. *)
Fixpoint last_binding (k : string) (its : list (string * string))
  : option string :=
  match its with
  | [] => None
  | (k', v) :: its' =>
      match last_binding k its' with
      | Some w => Some w
      | None => if decide (k = k') then Some v else None
      end
  end.

(** ** Iteration order *)

(** A dictionary iterates in insertion order.  The ordered view of a
    dictionary is the list of its items in that order.  [d[k] = v] on a key
    already present replaces the value where the key stands; a new key goes
    to the end. *)
Fixpoint odict_setitem (d : list (string * string)) (k v : string)
  : list (string * string) :=
  match d with
  | [] => [(k, v)]
  | (k', w) :: d' =>
      if decide (k = k') then (k, v) :: d'
      else (k', w) :: odict_setitem d' k v
  end.

(** The ordered view of [{k1: v1, ..., kn: vn}]. *)
Definition odict_display (its : list (string * string))
  : list (string * string) :=
  foldl (fun d kv => odict_setitem d kv.1 kv.2) [] its.

(** [list(left_ordering.items())] and [list(right_ordering.items())]. *)
Definition iter_items (h : hemisphere) : list (string * string) :=
  match h with
  | Left => odict_display left_ordering_items
  | Right => odict_display right_ordering_items
  end.

(** [list(d)], also [list(d.keys())], and [list(d.values())]. *)
Definition iter_keys (h : hemisphere) : list string := (iter_items h).*1.

Definition iter_values (h : hemisphere) : list string := (iter_items h).*2.

(** [[d[k] for k in ks]] as a sequence of subscriptions of one table. *)
Definition lookups (h : hemisphere) (ks : list string)
  : list (hemisphere * string) :=
  (fun k => (h, k)) <$> ks.

(** Consecutive blocks of the labels, in the order of [network_labels]:
    [sizes] gives the length of each block. *)
Definition blocks (sizes : list nat) : list string :=
  concat (zip_with replicate sizes network_labels).

(** Position of a label in a list of labels (its length when absent). *)
Fixpoint index_of (l : string) (ls : list string) : nat :=
  match ls with
  | [] => 0
  | x :: ls' => if decide (l = x) then 0 else S (index_of l ls')
  end.

Definition rank (l : string) : nat := index_of l network_labels.

(** ** Exported names *)

(** The objects the module body binds: the list of exported names and the
    two dictionaries. *)
Inductive object : Type :=
  | NameList (names : list string)
  | Dict (d : gmap string string).

(** [__all__ = ["left_ordering", "right_ordering"]]. *)
Definition __all__ : list string := ["left_ordering"; "right_ordering"].

(** The assignments of the module body, in source order. *)
Definition module_body : list (string * object) :=
  [ ("__all__", NameList __all__);
    ("left_ordering", Dict left_ordering);
    ("right_ordering", Dict right_ordering) ].

(** The global names bound once the body has run. *)
Definition module_globals : gmap string object :=
  foldl (fun g a => <[a.1 := a.2]> g) ∅ module_body.

Inductive import_exn : Type := AttributeError (name : string).

(** [from resting_state_networks import *] with [__all__] defined: every
    listed name is fetched from the module, in order; a name that the
    module does not bind raises [AttributeError]. *)
Fixpoint import_star (names : list string) (g : gmap string object)
  : import_exn + list (string * object) :=
  match names with
  | [] => inr []
  | n :: names' =>
      match g !! n with
      | None => inl (AttributeError n)
      | Some o =>
          match import_star names' g with
          | inl e => inl e
          | inr bs => inr ((n, o) :: bs)
          end
      end
  end.

(** Names that a star import takes when a module has no [__all__]: those
    that do not begin with an underscore. *)
Definition is_public (n : string) : bool := negb (String.prefix "_" n).

(** ** Facts about dictionary displays *)

Section display.
Implicit Types (its : list (string * string)) (d : gmap string string).
Implicit Types (k v : string).

Let store d (kv : string * string) := <[kv.1 := kv.2]> d.

Lemma store_all_lookup its d k :
  foldl store d its !! k =
    match last_binding k its with
    | Some w => Some w
    | None => d !! k
    end.
Proof.
  revert d. induction its as [|[k' v] its IH]; intros d; simpl; [done|].
  rewrite IH. destruct (last_binding k its) as [w|]; [done|].
  unfold store; simpl. rewrite lookup_insert.
  destruct (decide (k' = k)) as [->|Hne].
  - by rewrite decide_True.
  - by rewrite decide_False.
Qed.

(** A display binds every key to the value written last for it. *)
Lemma dict_display_lookup its k :
  dict_display its !! k = last_binding k its.
Proof.
  unfold dict_display. change (fun d kv => <[kv.1:=kv.2]> d) with store.
  rewrite store_all_lookup, lookup_empty.
  by destruct (last_binding k its).
Qed.

Lemma last_binding_None its k :
  last_binding k its = None ↔ k ∉ its.*1.
Proof.
  induction its as [|[k' v] its IH]; simpl.
  - split; [intros _; apply not_elem_of_nil | done].
  - rewrite not_elem_of_cons, <- IH.
    destruct (last_binding k its); [intuition congruence|].
    destruct (decide (k = k')); intuition congruence.
Qed.

Lemma last_binding_elem_of its k v :
  last_binding k its = Some v → (k, v) ∈ its.
Proof.
  induction its as [|[k' w] its IH]; simpl; [done|].
  destruct (last_binding k its) as [u|].
  - intros [= ->]. right. by apply IH.
  - destruct (decide (k = k')) as [->|]; [|done].
    intros [= ->]. left.
Qed.

(** Without repeated keys, the display holds exactly the items written. *)
Lemma last_binding_NoDup its k v :
  NoDup its.*1 → (k, v) ∈ its → last_binding k its = Some v.
Proof.
  induction its as [|[k' w] its IH]; simpl; [by intros _ ?%elem_of_nil|].
  rewrite NoDup_cons. intros [Hk' Hnd] [[= -> ->]|Hin]%elem_of_cons.
  - apply last_binding_None in Hk'. rewrite Hk'. by rewrite decide_True.
  - by rewrite (IH Hnd Hin).
Qed.

Lemma dict_display_items its k v :
  NoDup its.*1 → dict_display its !! k = Some v ↔ (k, v) ∈ its.
Proof.
  intros Hnd. rewrite dict_display_lookup. split.
  - apply last_binding_elem_of.
  - by apply last_binding_NoDup.
Qed.

Lemma dict_display_dom its : dom (dict_display its) = list_to_set its.*1.
Proof.
  apply set_eq; intros k.
  rewrite elem_of_dom, elem_of_list_to_set, dict_display_lookup.
  destruct (last_binding k its) as [w|] eqn:E.
  - split; [intros _|by eauto].
    destruct (decide (k ∈ its.*1)) as [|Hn]; [done|].
    apply last_binding_None in Hn. congruence.
  - apply last_binding_None in E. split; [by intros [? [=]] | done].
Qed.

Lemma dict_display_size its :
  NoDup its.*1 → size (dict_display its) = length its.
Proof.
  intros Hnd. rewrite <- size_dom, dict_display_dom.
  rewrite size_list_to_set by done. by rewrite length_fmap.
Qed.
End display.

(** ** Subscription leaves the namespace alone *)

Lemma getitem_frame h k ns : (getitem h k ns).2 = ns.
Proof. unfold getitem. by destruct (table h ns !! k). Qed.

Lemma run_frame qs ns : (run qs ns).2 = ns.
Proof.
  revert ns. induction qs as [|[h k] qs IH]; intros ns; simpl; [done|].
  pose proof (getitem_frame h k ns) as Hg.
  destruct (getitem h k ns) as [r ns1]; simpl in Hg; subst ns1.
  specialize (IH ns). by destruct (run qs ns) as [rs ns2].
Qed.

Lemma getitem_Some h k v ns :
  table h ns !! k = Some v → getitem h k ns = (inr v, ns).
Proof. unfold getitem. by intros ->. Qed.

Lemma getitem_None h k ns :
  table h ns !! k = None → getitem h k ns = (inl (KeyError k), ns).
Proof. unfold getitem. by intros ->. Qed.

(** ** Computed facts about the two tables *)

Lemma left_items_NoDup : NoDup left_ordering_items.*1.
Proof. apply (bool_decide_unpack _). by vm_compute. Qed.

Lemma right_items_NoDup : NoDup right_ordering_items.*1.
Proof. apply (bool_decide_unpack _). by vm_compute. Qed.

Lemma same_region_names : right_ordering_items.*1 = left_ordering_items.*1.
Proof. reflexivity. Qed.

Lemma dom_left : dom left_ordering = list_to_set region_names.
Proof. apply dict_display_dom. Qed.

Lemma dom_right : dom right_ordering = list_to_set region_names.
Proof.
  unfold right_ordering, region_names.
  by rewrite dict_display_dom, same_region_names.
Qed.

Lemma table_dom h : dom (table h module_init) = list_to_set region_names.
Proof. destruct h; [apply dom_left | apply dom_right]. Qed.

Lemma left_lookup_items k v :
  left_ordering !! k = Some v ↔ (k, v) ∈ left_ordering_items.
Proof. apply dict_display_items, left_items_NoDup. Qed.

Lemma right_lookup_items k v :
  right_ordering !! k = Some v ↔ (k, v) ∈ right_ordering_items.
Proof. apply dict_display_items, right_items_NoDup. Qed.

Lemma region_names_NoDup : NoDup region_names.
Proof. apply left_items_NoDup. Qed.

Lemma elem_of_table_dom h k :
  k ∈ dom (table h module_init) ↔ k ∈ region_names.
Proof. by rewrite table_dom, elem_of_list_to_set. Qed.

(** The right display is the left one with a single entry overwritten. *)
Lemma right_as_left :
  right_ordering = <["caudalanteriorcingulate" := "DMN"]> left_ordering.
Proof. by vm_compute. Qed.

Lemma left_labels : Forall (fun kv => kv.2 ∈ network_labels) left_ordering_items.
Proof. apply (bool_decide_unpack _). by vm_compute. Qed.

Lemma right_labels : Forall (fun kv => kv.2 ∈ network_labels) right_ordering_items.
Proof. apply (bool_decide_unpack _). by vm_compute. Qed.

Lemma names_well_formed :
  Forall (fun k => well_formed_name k = true) region_names.
Proof. apply (bool_decide_unpack _). by vm_compute. Qed.

Lemma left_AUD_items :
  Forall (fun kv => kv.2 = "AUD" → kv.1 = "superiortemporal")
    left_ordering_items.
Proof. apply (bool_decide_unpack _). by vm_compute. Qed.

Lemma right_AUD_items :
  Forall (fun kv => kv.2 = "AUD" → kv.1 = "superiortemporal")
    right_ordering_items.
Proof. apply (bool_decide_unpack _). by vm_compute. Qed.

Lemma well_formed_name_parts s :
  well_formed_name s = true →
  islower s = true ∧ only_lowercase_letters s = true
  ∧ has_whitespace s = false.
Proof.
  unfold well_formed_name.
  rewrite !andb_true_iff, negb_true_iff. tauto.
Qed.

(** ** The claims *)

(** C1: the key sets of [left_ordering] and [right_ordering] are identical:
    every key of [left_ordering] is a key of [right_ordering], and every
    key of [right_ordering] is a key of [left_ordering]. *)
Theorem same_key_sets :
  dom left_ordering = dom right_ordering
  ∧ ∀ k : string,
      (k ∈ dom left_ordering → k ∈ dom right_ordering)
      ∧ (k ∈ dom right_ordering → k ∈ dom left_ordering).
Proof.
  assert (dom left_ordering = dom right_ordering) as E
    by (by rewrite dom_left, dom_right).
  split; [exact E|]. intros k. rewrite E. tauto.
Qed.

Lemma same_key_sets_witness :
  "insula" ∈ dom left_ordering ∧ "insula" ∈ dom right_ordering.
Proof.
  assert ("insula" ∈ dom left_ordering) as Hin.
  { apply elem_of_dom. exists "SAN". by vm_compute. }
  split; [exact Hin|].
  exact (proj1 (proj2 same_key_sets "insula") Hin).
Defined.

(** C2, as the specification states it, fails: the tables do not have 33
    keys each. *)
Lemma tables_do_not_have_33_keys :
  ¬ (size left_ordering = 33 ∧ size right_ordering = 33).
Proof.
  intros [Hl _]. unfold left_ordering in Hl.
  rewrite dict_display_size in Hl by apply left_items_NoDup.
  vm_compute in Hl. discriminate Hl.
Qed.

(** C2, amended: each hemisphere table contains exactly 34 region-name
    keys; subscription succeeds on exactly the 34 pairwise distinct names of
    [region_names], in either table. *)
Theorem tables_have_34_keys :
  size left_ordering = 34 ∧ size right_ordering = 34
  ∧ NoDup region_names ∧ length region_names = 34
  ∧ ∀ (h : hemisphere) (k : string),
      (∃ v, getitem h k module_init = (inr v, module_init))
      ↔ k ∈ region_names.
Proof.
  split; [|split; [|split; [|split]]].
  - unfold left_ordering.
    by rewrite dict_display_size by apply left_items_NoDup.
  - unfold right_ordering.
    by rewrite dict_display_size by apply right_items_NoDup.
  - apply region_names_NoDup.
  - reflexivity.
  - intros h k. rewrite <- (elem_of_table_dom h), elem_of_dom.
    unfold getitem. destruct (table h module_init !! k) as [v|].
    + split; [intros _; by exists v | intros _; by exists v].
    + split; [by intros [v [=]] | by intros [v [=]]].
Qed.

Lemma tables_have_34_keys_witness :
  ∃ v, getitem Right "bankssts" module_init = (inr v, module_init).
Proof.
  apply (proj2 (proj2 (proj2 (proj2 (proj2 tables_have_34_keys))) Right
                 "bankssts")).
  apply (bool_decide_unpack _). by vm_compute.
Defined.

(** C3: every value of [left_ordering] and of [right_ordering] is one of
    the six labels DMN, DAN, SAN, AUD, VIS, other; no other string occurs
    as a value. *)
Theorem values_in_network_labels (k v : string) :
  (left_ordering !! k = Some v → v ∈ network_labels)
  ∧ (right_ordering !! k = Some v → v ∈ network_labels)
  ∧ NoDup network_labels ∧ length network_labels = 6.
Proof.
  split; [|split; [|split]].
  - intros Hin%left_lookup_items.
    exact (proj1 (Forall_forall _ _) left_labels (k, v) Hin).
  - intros Hin%right_lookup_items.
    exact (proj1 (Forall_forall _ _) right_labels (k, v) Hin).
  - apply (bool_decide_unpack _). by vm_compute.
  - reflexivity.
Qed.

Lemma values_in_network_labels_witness :
  left_ordering !! "insula" = Some "SAN"
  ∧ right_ordering !! "insula" = Some "SAN"
  ∧ "SAN" ∈ network_labels.
Proof.
  assert (left_ordering !! "insula" = Some "SAN") as Hl by (by vm_compute).
  assert (right_ordering !! "insula" = Some "SAN") as Hr by (by vm_compute).
  split; [exact Hl|]. split; [exact Hr|].
  exact (proj1 (values_in_network_labels "insula" "SAN") Hl).
Defined.

(** C4: the literal lookups of the specification:
    [left_ordering["caudalanteriorcingulate"]] is DAN while
    [right_ordering["caudalanteriorcingulate"]] is DMN;
    [left_ordering["insula"]] is SAN; [left_ordering["cuneus"]] is VIS;
    [left_ordering["superiortemporal"]] is AUD;
    [left_ordering["bankssts"]] is other. *)
Theorem spot_checks :
  getitem Left "caudalanteriorcingulate" module_init = (inr "DAN", module_init)
  ∧ getitem Right "caudalanteriorcingulate" module_init
    = (inr "DMN", module_init)
  ∧ getitem Left "insula" module_init = (inr "SAN", module_init)
  ∧ getitem Left "cuneus" module_init = (inr "VIS", module_init)
  ∧ getitem Left "superiortemporal" module_init = (inr "AUD", module_init)
  ∧ getitem Left "bankssts" module_init = (inr "other", module_init).
Proof. repeat split; apply getitem_Some; by vm_compute. Qed.

(** C5: for every region name not present in the tables, subscription of
    [left_ordering] and of [right_ordering] both raise [KeyError]; neither
    returns the label "other". *)
Theorem unknown_region_raises (k : string) :
  k ∉ dom left_ordering ∨ k ∉ dom right_ordering →
  ∀ h : hemisphere,
    getitem h k module_init = (inl (KeyError k), module_init)
    ∧ (getitem h k module_init).1 ≠ inr "other".
Proof.
  intros Hk h.
  assert (k ∉ dom (table h module_init)) as Hn.
  { rewrite table_dom. rewrite dom_left, dom_right in Hk. tauto. }
  apply not_elem_of_dom in Hn.
  rewrite (getitem_None _ _ _ Hn). by split.
Qed.

Lemma unknown_region_raises_witness :
  ("unknown_region" ∉ dom left_ordering
   ∨ "unknown_region" ∉ dom right_ordering)
  ∧ getitem Left "unknown_region" module_init
    = (inl (KeyError "unknown_region"), module_init)
  ∧ getitem Right "unknown_region" module_init
    = (inl (KeyError "unknown_region"), module_init).
Proof.
  assert ("unknown_region" ∉ dom left_ordering) as Hn.
  { apply not_elem_of_dom. by vm_compute. }
  split; [by left|]. split.
  - exact (proj1 (unknown_region_raises "unknown_region" (or_introl Hn) Left)).
  - exact (proj1 (unknown_region_raises "unknown_region" (or_introl Hn) Right)).
Defined.

(** C6: subscription is deterministic and idempotent: in either table and
    for every key, a lookup repeated after any sequence of other lookups
    returns the same outcome as the first one. *)
Theorem lookup_idempotent (h : hemisphere) (k : string)
    (qs : list (hemisphere * string)) (ns : namespace) :
  (getitem h k (run qs (getitem h k ns).2).2).1 = (getitem h k ns).1.
Proof. by rewrite run_frame, getitem_frame. Qed.

(** C7: every key of both tables is a well-formed region name: within each
    table the keys are pairwise distinct, every key is entirely lowercase,
    and no key contains whitespace. *)
Theorem keys_well_formed :
  NoDup left_ordering_items.*1 ∧ NoDup right_ordering_items.*1
  ∧ NoDup (map_to_list left_ordering).*1
  ∧ NoDup (map_to_list right_ordering).*1
  ∧ ∀ k : string,
      k ∈ dom left_ordering ∨ k ∈ dom right_ordering →
      islower k = true ∧ only_lowercase_letters k = true
      ∧ has_whitespace k = false.
Proof.
  split; [apply left_items_NoDup|]. split; [apply right_items_NoDup|].
  split; [apply NoDup_fst_map_to_list|].
  split; [apply NoDup_fst_map_to_list|].
  intros k Hk. apply well_formed_name_parts.
  assert (k ∈ region_names) as Hin.
  { rewrite dom_left, dom_right, !elem_of_list_to_set in Hk. tauto. }
  exact (proj1 (Forall_forall _ _) names_well_formed k Hin).
Qed.

Lemma keys_well_formed_witness :
  ("parsorbitalis" ∈ dom left_ordering
   ∨ "parsorbitalis" ∈ dom right_ordering)
  ∧ islower "parsorbitalis" = true
  ∧ only_lowercase_letters "parsorbitalis" = true
  ∧ has_whitespace "parsorbitalis" = false.
Proof.
  assert ("parsorbitalis" ∈ dom right_ordering) as Hin.
  { apply elem_of_dom. exists "DAN". by vm_compute. }
  split; [by right|].
  exact (proj2 (proj2 (proj2 (proj2 keys_well_formed))) "parsorbitalis"
           (or_intror Hin)).
Defined.

(** C8: subscription has no side effects: after any lookup, successful or
    failing, and after any sequence of lookups, [left_ordering] and
    [right_ordering] are unchanged. *)
Theorem lookup_no_side_effects (h : hemisphere) (k : string)
    (qs : list (hemisphere * string)) (ns : namespace) :
  (getitem h k ns).2 = ns
  ∧ (run qs ns).2 = ns
  ∧ ns_left_ordering (run qs module_init).2 = left_ordering
  ∧ ns_right_ordering (run qs module_init).2 = right_ordering.
Proof.
  split; [apply getitem_frame|]. split; [apply run_frame|].
  by rewrite run_frame.
Qed.

(** C9: the two tables differ at exactly one key: for every key other than
    "caudalanteriorcingulate" the left and right values coincide, and at
    "caudalanteriorcingulate" the left value is DAN and the right one DMN. *)
Theorem tables_differ_at_one_key :
  (∀ k : string,
     k ≠ "caudalanteriorcingulate" →
     left_ordering !! k = right_ordering !! k)
  ∧ left_ordering !! "caudalanteriorcingulate" = Some "DAN"
  ∧ right_ordering !! "caudalanteriorcingulate" = Some "DMN"
  ∧ left_ordering !! "caudalanteriorcingulate"
    ≠ right_ordering !! "caudalanteriorcingulate".
Proof.
  split; [|split; [|split]].
  - intros k Hk. rewrite right_as_left. by rewrite lookup_insert_ne.
  - by vm_compute.
  - by vm_compute.
  - by vm_compute.
Qed.

Lemma tables_differ_at_one_key_witness :
  "precuneus" ≠ "caudalanteriorcingulate"
  ∧ left_ordering !! "precuneus" = right_ordering !! "precuneus".
Proof.
  assert ("precuneus" ≠ "caudalanteriorcingulate") as Hne by discriminate.
  split; [exact Hne|].
  exact (proj1 tables_differ_at_one_key "precuneus" Hne).
Defined.

(** C10: each of the six labels DMN, DAN, SAN, AUD, VIS, other is the value
    of at least one key in [left_ordering] and of at least one key in
    [right_ordering]; AUD is the value of exactly one key in each table,
    "superiortemporal". *)
Theorem every_label_used :
  (∀ l : string,
     l ∈ network_labels →
     (∃ k, left_ordering !! k = Some l) ∧ (∃ k, right_ordering !! k = Some l))
  ∧ (∀ k : string,
       left_ordering !! k = Some "AUD" ↔ k = "superiortemporal")
  ∧ (∀ k : string,
       right_ordering !! k = Some "AUD" ↔ k = "superiortemporal").
Proof.
  split; [|split].
  - intros l Hl. unfold network_labels in Hl.
    repeat (apply elem_of_cons in Hl as [->|Hl]);
      [| | | | | |by apply elem_of_nil in Hl].
    + split; exists "precuneus"; by vm_compute.
    + split; exists "middletemporal"; by vm_compute.
    + split; exists "insula"; by vm_compute.
    + split; exists "superiortemporal"; by vm_compute.
    + split; exists "lingual"; by vm_compute.
    + split; exists "frontalpole"; by vm_compute.
  - intros k. split.
    + intros Hin%left_lookup_items.
      exact (proj1 (Forall_forall _ _) left_AUD_items (k, "AUD") Hin eq_refl).
    + intros ->. by vm_compute.
  - intros k. split.
    + intros Hin%right_lookup_items.
      exact (proj1 (Forall_forall _ _) right_AUD_items (k, "AUD") Hin eq_refl).
    + intros ->. by vm_compute.
Qed.

Lemma every_label_used_witness :
  "AUD" ∈ network_labels
  ∧ (∃ k, left_ordering !! k = Some "AUD")
  ∧ (∃ k, right_ordering !! k = Some "AUD").
Proof.
  assert ("AUD" ∈ network_labels) as Hl.
  { apply (bool_decide_unpack _). by vm_compute. }
  split; [exact Hl|].
  exact (proj1 every_label_used "AUD" Hl).
Defined.

(** ** Facts about the ordered view *)

Lemma odict_setitem_fresh (d : list (string * string)) (k v : string) :
  k ∉ d.*1 → odict_setitem d k v = (d ++ [(k, v)])%list.
Proof.
  induction d as [|[k' w] d IH]; simpl; [done|].
  intros [Hne Hn]%not_elem_of_cons.
  rewrite decide_False by done. by rewrite IH.
Qed.

Lemma odict_display_snoc (its : list (string * string)) (k v : string) :
  odict_display (its ++ [(k, v)])%list = odict_setitem (odict_display its) k v.
Proof. unfold odict_display. by rewrite foldl_snoc. Qed.

(** Without repeated keys, a dictionary iterates its display as written. *)
Lemma odict_display_NoDup (its : list (string * string)) :
  NoDup its.*1 → odict_display its = its.
Proof.
  induction its as [|[k v] its IH] using rev_ind; [done|].
  rewrite fmap_app, NoDup_app. intros (Hnd & Hdisj & _).
  rewrite odict_display_snoc, (IH Hnd).
  apply odict_setitem_fresh. intros Hin.
  apply (Hdisj k Hin). simpl. left.
Qed.

Lemma odict_setitem_to_map (d : list (string * string)) (k v : string) :
  list_to_map (odict_setitem d k v)
  =@{gmap string string} <[k := v]> (list_to_map d).
Proof.
  induction d as [|[k' w] d IH]; simpl; [done|].
  destruct (decide (k = k')) as [->|Hne]; simpl.
  - by rewrite insert_insert_eq.
  - rewrite IH. by apply insert_insert_ne.
Qed.

(** The ordered view and the finite map of a display hold the same
    bindings, repeated keys or not. *)
Lemma odict_display_to_map (its : list (string * string)) :
  list_to_map (odict_display its) = dict_display its.
Proof.
  induction its as [|[k v] its IH] using rev_ind; [done|].
  rewrite odict_display_snoc, odict_setitem_to_map, IH.
  unfold dict_display. by rewrite foldl_snoc.
Qed.

Lemma iter_items_source (h : hemisphere) :
  iter_items h
  = match h with
    | Left => left_ordering_items
    | Right => right_ordering_items
    end.
Proof.
  destruct h; apply odict_display_NoDup;
    [apply left_items_NoDup | apply right_items_NoDup].
Qed.

Lemma iter_keys_region_names (h : hemisphere) : iter_keys h = region_names.
Proof. unfold iter_keys. rewrite iter_items_source. by destruct h. Qed.

Lemma iter_items_table (h : hemisphere) (k v : string) :
  (k, v) ∈ iter_items h → table h module_init !! k = Some v.
Proof.
  rewrite iter_items_source. destruct h; simpl.
  - apply left_lookup_items.
  - apply right_lookup_items.
Qed.

Lemma run_cons (h : hemisphere) (k : string)
    (qs : list (hemisphere * string)) (ns : namespace) :
  run ((h, k) :: qs) ns
  = let (r, ns1) := getitem h k ns in
    let (rs, ns2) := run qs ns1 in (r :: rs, ns2).
Proof. reflexivity. Qed.

Lemma run_lookups_items (h : hemisphere) (ns : namespace)
    (its : list (string * string)) :
  (∀ k v, (k, v) ∈ its → table h ns !! k = Some v) →
  run (lookups h its.*1) ns = (inr <$> its.*2, ns).
Proof.
  induction its as [|[k v] its IH]; intros Hall; [done|].
  change (run ((h, k) :: lookups h its.*1) ns
          = (inr v :: (inr <$> its.*2), ns)).
  rewrite run_cons, (getitem_Some h k v ns) by (apply Hall; left).
  rewrite IH; [done|]. intros k' v' Hin. apply Hall. by right.
Qed.

Lemma StronglySorted_lookup_lt {A} (R : relation A) (l : list A)
    (i j : nat) (x y : A) :
  StronglySorted R l → (i < j)%nat → l !! i = Some x → l !! j = Some y → R x y.
Proof.
  intros Hs. revert i j. induction Hs as [|a l Hs IH Hall]; intros i j Hij.
  - by intros [=].
  - destruct j as [|j]; [lia|]. destruct i as [|i]; simpl.
    + intros [= ->] Hy. apply (proj1 (Forall_forall _ _) Hall).
      by apply list_elem_of_lookup_2 in Hy.
    + apply IH. lia.
Qed.

Lemma index_of_inj (ls : list string) (l m : string) :
  l ∈ ls → index_of l ls = index_of m ls → l = m.
Proof.
  induction ls as [|x ls IH]; [by intros ?%elem_of_nil|]. simpl.
  intros Hin. destruct (decide (l = x)) as [->|Hl].
  - destruct (decide (m = x)); [done | discriminate].
  - destruct (decide (m = x)); [discriminate|].
    intros [= E]. apply IH; [|done].
    apply elem_of_cons in Hin as [?|?]; [done | done].
Qed.

Lemma iter_values_sorted (h : hemisphere) :
  StronglySorted (fun a b => (rank a ≤ rank b)%nat) (iter_values h).
Proof. destruct h; apply (bool_decide_unpack _); by vm_compute. Qed.

Lemma iter_values_labels (h : hemisphere) :
  Forall (fun l => l ∈ network_labels) (iter_values h).
Proof. destruct h; apply (bool_decide_unpack _); by vm_compute. Qed.

Lemma module_globals_dom :
  dom module_globals
  = {[ "__all__"; "left_ordering"; "right_ordering" ]}.
Proof.
  unfold module_globals, module_body. simpl.
  rewrite !dom_insert_L, dom_empty_L. set_solver.
Qed.

(** ** Further properties of the module *)

(** X1: [__all__] agrees with the module: a star import fetches every
    listed name without [AttributeError] and binds exactly the two tables;
    the listed names are distinct, and they are exactly the names bound by
    the module body that do not begin with an underscore. *)
Theorem star_import_binds_both_tables :
  import_star __all__ module_globals
  = inr [ ("left_ordering", Dict (ns_left_ordering module_init));
          ("right_ordering", Dict (ns_right_ordering module_init)) ]
  ∧ NoDup __all__
  ∧ ∀ n : string,
      n ∈ __all__ ↔ n ∈ dom module_globals ∧ is_public n = true.
Proof.
  split; [|split].
  - unfold module_globals, module_body, __all__. simpl.
    rewrite lookup_insert_ne by done. rewrite lookup_insert_eq.
    by rewrite lookup_insert_eq.
  - apply (bool_decide_unpack _). by vm_compute.
  - intros n. rewrite module_globals_dom. unfold __all__.
    rewrite !elem_of_union, !elem_of_singleton.
    rewrite !elem_of_cons, elem_of_nil. split.
    + intros [->|[->|[]]]; split; auto.
    + intros [[[->| ->]| ->] Hp]; [discriminate Hp | by left | by right; left].
Qed.

Lemma star_import_binds_both_tables_witness :
  "right_ordering" ∈ dom module_globals ∧ is_public "right_ordering" = true.
Proof.
  apply (proj1 (proj2 (proj2 star_import_binds_both_tables)
                  "right_ordering")).
  apply (bool_decide_unpack _). by vm_compute.
Defined.

(** X2: both tables iterate the same sequence of 34 region names, the one
    written in the source, each name once; the items met while iterating a
    table are exactly the bindings of that table. *)
Theorem iteration_order (h : hemisphere) :
  iter_keys Left = iter_keys Right
  ∧ iter_keys h = region_names
  ∧ NoDup (iter_keys h) ∧ length (iter_keys h) = 34
  ∧ list_to_map (iter_items h) = table h module_init.
Proof.
  split; [by rewrite !iter_keys_region_names|].
  split; [apply iter_keys_region_names|].
  rewrite iter_keys_region_names.
  split; [apply region_names_NoDup|]. split; [done|].
  destruct h; apply odict_display_to_map.
Qed.

(** X3: in iteration order the labels of a table come in six consecutive
    blocks, DMN, DAN, SAN, AUD, VIS, other: of 7, 6, 4, 1, 4 and 12 regions
    on the left, and of 8, 5, 4, 1, 4 and 12 regions on the right. *)
Theorem labels_in_blocks :
  iter_values Left = blocks [7; 6; 4; 1; 4; 12]
  ∧ iter_values Right = blocks [8; 5; 4; 1; 4; 12].
Proof. split; by vm_compute. Qed.

(** X4: the regions of a network are contiguous in iteration order: when
    two positions of a table carry the same label, every position between
    them carries that label too. *)
Theorem networks_contiguous (h : hemisphere) (i j k : nat) (l m : string) :
  (i ≤ j)%nat → (j ≤ k)%nat →
  iter_values h !! i = Some l → iter_values h !! k = Some l →
  iter_values h !! j = Some m →
  m = l.
Proof.
  intros Hij Hjk Hi Hk Hj.
  destruct (decide (i = j)) as [->|Hne1]; [congruence|].
  destruct (decide (j = k)) as [->|Hne2]; [congruence|].
  pose proof (iter_values_sorted h) as Hs.
  assert (rank l ≤ rank m)%nat as H1.
  { apply (StronglySorted_lookup_lt _ _ i j l m Hs); [lia|done|done]. }
  assert (rank m ≤ rank l)%nat as H2.
  { apply (StronglySorted_lookup_lt _ _ j k m l Hs); [lia|done|done]. }
  symmetry. apply (index_of_inj network_labels).
  - apply (proj1 (Forall_forall _ _) (iter_values_labels h)).
    by apply list_elem_of_lookup_2 in Hi.
  - unfold rank in *. lia.
Qed.

Lemma networks_contiguous_witness :
  (7 ≤ 9)%nat ∧ (9 ≤ 12)%nat
  ∧ iter_values Left !! 7 = Some "DAN" ∧ iter_values Left !! 12 = Some "DAN"
  ∧ iter_values Left !! 9 = Some "DAN"
  ∧ "DAN" = "DAN".
Proof.
  assert (7 ≤ 9)%nat as Hij by lia.
  assert (9 ≤ 12)%nat as Hjk by lia.
  assert (iter_values Left !! 7 = Some "DAN") as Hi by (by vm_compute).
  assert (iter_values Left !! 12 = Some "DAN") as Hk by (by vm_compute).
  assert (iter_values Left !! 9 = Some "DAN") as Hj by (by vm_compute).
  repeat (split; [assumption|]).
  exact (networks_contiguous Left 7 9 12 "DAN" "DAN" Hij Hjk Hi Hk Hj).
Defined.

(** X5: iterating one table and subscripting either table with each key
    never raises [KeyError]: the outcomes are the values of the subscripted
    table, in its own iteration order, and the tables are left as they
    were. *)
Theorem cross_hemisphere_lookups (h h' : hemisphere) :
  run (lookups h (iter_keys h')) module_init
  = (inr <$> iter_values h, module_init).
Proof.
  rewrite (iter_keys_region_names h'), <- (iter_keys_region_names h).
  unfold iter_keys, iter_values. apply run_lookups_items.
  intros k v. apply iter_items_table.
Qed.
